(** * The card-swiper front end of GH_automated: gesture cards, the card
      container and the like-counter toggler.

    A shallow embedding of [www/app/static/card.js],
    [www/app/static/cardContainer.js] and [www/app/static/ajax.js].

    JavaScript numbers are IEEE-754 binary64 values: pointer coordinates,
    drag offsets, widths and the swipe direction are Rocq's primitive
    [float]s, so that [clientWidth * 0.7] is rounded exactly as the browser
    rounds it.  Counters that only ever hold small integers ([cardCount],
    timer delays, JSON numbers) are [Z].

    A browser page is a record [page]: the heap of [Card] objects, the
    children of [#swiper], the listeners bound on [document], the pending
    timers, and the trace of what the scripts did to the outside world
    (console output, [fetch] calls, callback invocations).  Every method of
    the source is a function [page -> page] that performs the statements
    of the method in their order. *)

From Stdlib Require Import ZArith Floats Bool.
From stdpp Require Import base decidable option list strings pretty.

Set Warnings "-inexact-float,-register-all".

(** ** JSON values and string conversion *)

Inductive json :=
| JNull
| JBool (b : bool)
| JNumber (n : Z)
| JString (s : string)
| JObject (fields : list (string * json)).

(** [`${v}`] and [String(v)]. *)
Definition to_string (v : json) : string :=
  match v with
  | JNull => "null"
  | JBool true => "true"
  | JBool false => "false"
  | JNumber n => pretty n
  | JString s => s
  | JObject _ => "[object Object]"
  end.



(** ** What the scripts do to the outside world *)

Inductive hook := OnDismiss | OnLike | OnDislike.

Inductive effect :=
| ConsoleLog (msg : string)          (* console.log(<string>) *)
| ConsoleLogData (data : json)       (* console.log(data) *)
| ConsoleError (msg : string)        (* console.error(...) *)
| Fetch (url : string) (body : json) (* fetch(url, {method: 'POST', body: JSON.stringify(body)}) *)
| Invoke (o : nat) (h : hook).       (* card object o calls this.onDismiss / onLike / onDislike *)

(** How a [fetch(...).then(r => r.json())] chain settles. *)
Inductive fetch_result :=
| NetworkError (err : string)        (* fetch rejects *)
| BadJson (err : string)             (* response.json() rejects *)
| JsonData (data : json).

(** ** Card objects and their elements *)

Record point := mkPoint { px : float; py : float }.

Inductive css_transform :=
| NoTransform                                              (* '' *)
| TranslateRotate (tx : float) (ty : option float) (deg : float).
    (* `translate(${tx}px, ${ty}px) rotate(${deg}deg)`; ty is [None] when
       the interpolated field is still undefined *)

(** The three closures [appendNewCard] passes to [new Card]. *)
Inductive callback :=
| DismissClosure
| LikeClosure (carName : string)
| DislikeClosure (carName : string).

Record Content := mkContent {
  img_alt : string; img_src : string; name_text : string; details_text : string }.

Record Element := mkElement {
  classList : list string;
  dataset_carID : string;
  content : Content;
  transition : string;               (* element.style.transition *)
  transform : css_transform;         (* element.style.transform *)
  stack_index : option nat;          (* the custom property --i *)
  listeners : list string;           (* event types with a listener on the element *)
  layoutWidth : float;               (* the width layout gives the element while rendered *)
  attached : bool }.                 (* is the element in the document? *)

Record Card := mkCard {
  carID : json; imageUrl : string; carName : string; details : string;
  onDismiss : option callback; onLike : option callback; onDislike : option callback;
  startPoint : option point;         (* #startPoint; undefined and null are [None] *)
  offsetX : option float;            (* #offsetX, undefined until the first move *)
  offsetY : option float;            (* #offsetY *)
  element : Element }.

(** [element.clientWidth]: zero for an element that is not rendered. *)
Definition clientWidth (e : Element) : float :=
  if attached e then layoutWidth e else 0%float.

Definition set_classList (v : list string) (e : Element) : Element :=
  mkElement v (dataset_carID e) (content e) (transition e) (transform e)
            (stack_index e) (listeners e) (layoutWidth e) (attached e).
Definition set_transition (v : string) (e : Element) : Element :=
  mkElement (classList e) (dataset_carID e) (content e) v (transform e)
            (stack_index e) (listeners e) (layoutWidth e) (attached e).
Definition set_transform (v : css_transform) (e : Element) : Element :=
  mkElement (classList e) (dataset_carID e) (content e) (transition e) v
            (stack_index e) (listeners e) (layoutWidth e) (attached e).
Definition set_stack_index (v : option nat) (e : Element) : Element :=
  mkElement (classList e) (dataset_carID e) (content e) (transition e) (transform e)
            v (listeners e) (layoutWidth e) (attached e).
Definition set_listeners (v : list string) (e : Element) : Element :=
  mkElement (classList e) (dataset_carID e) (content e) (transition e) (transform e)
            (stack_index e) v (layoutWidth e) (attached e).
Definition set_attached (v : bool) (e : Element) : Element :=
  mkElement (classList e) (dataset_carID e) (content e) (transition e) (transform e)
            (stack_index e) (listeners e) (layoutWidth e) v.

Definition set_startPoint (v : option point) (c : Card) : Card :=
  mkCard (carID c) (imageUrl c) (carName c) (details c)
         (onDismiss c) (onLike c) (onDislike c) v (offsetX c) (offsetY c) (element c).
Definition set_offsetX (v : option float) (c : Card) : Card :=
  mkCard (carID c) (imageUrl c) (carName c) (details c)
         (onDismiss c) (onLike c) (onDislike c) (startPoint c) v (offsetY c) (element c).
Definition set_offsetY (v : option float) (c : Card) : Card :=
  mkCard (carID c) (imageUrl c) (carName c) (details c)
         (onDismiss c) (onLike c) (onDislike c) (startPoint c) (offsetX c) v (element c).
Definition on_element (f : Element -> Element) (c : Card) : Card :=
  mkCard (carID c) (imageUrl c) (carName c) (details c)
         (onDismiss c) (onLike c) (onDislike c) (startPoint c) (offsetX c) (offsetY c)
         (f (element c)).

(** [classList.add(name)]: a token list holds a name once. *)
Definition add_class (name : string) (e : Element) : Element :=
  if decide (name ∈ classList e) then e else set_classList (classList e ++ [name]) e.

(** ** The page *)

(** The private arrow functions a card binds on [document]. *)
Inductive handler := HandleMoveUp | HandleMouseMove | HandleTouchEnd | HandleTouchMove.

Global Instance handler_eq_dec : EqDecision handler.
Proof. solve_decision. Defined.

(** A listener is the function object [this.#h] of the card object [o]. *)
Abbreviation listener := (nat * handler)%type.

(** The [#like] and [#dislike] indicator elements. *)
Record Indicator := mkIndicator { animationPlayState : string; trigger : bool }.

(** What [#isTouchDevice] reads. *)
Record Capabilities := mkCapabilities {
  ontouchstart_in_window : bool;
  maxTouchPoints : option Z;         (* navigator.maxTouchPoints, [None] when undefined *)
  msMaxTouchPoints : option Z }.

(** What the browser and the stylesheet supply. *)
Record Host := mkHost {
  innerWidth : float;                (* window.innerWidth *)
  cardWidth : float;                 (* the width layout gives a rendered .card *)
  capabilities : Capabilities }.

Record page := mkPage {
  cards : list Card;                       (* the Card objects, by creation index *)
  swiper : list nat;                       (* the children of #swiper, in document order *)
  document : list (string * listener);     (* document's event listener list *)
  timers : list (Z * nat);                 (* pending setTimeout(() => element.remove(), ms) *)
  trace : list effect;
  cardCount : Z;
  like : Indicator;
  dislike : Indicator;
  no_more_cards_message : string;          (* style.display of #no-more-cards-message *)
  host : Host }.

Definition set_cards (v : list Card) (p : page) : page :=
  mkPage v (swiper p) (document p) (timers p) (trace p) (cardCount p)
         (like p) (dislike p) (no_more_cards_message p) (host p).
Definition set_swiper (v : list nat) (p : page) : page :=
  mkPage (cards p) v (document p) (timers p) (trace p) (cardCount p)
         (like p) (dislike p) (no_more_cards_message p) (host p).
Definition set_document (v : list (string * listener)) (p : page) : page :=
  mkPage (cards p) (swiper p) v (timers p) (trace p) (cardCount p)
         (like p) (dislike p) (no_more_cards_message p) (host p).
Definition set_timers (v : list (Z * nat)) (p : page) : page :=
  mkPage (cards p) (swiper p) (document p) v (trace p) (cardCount p)
         (like p) (dislike p) (no_more_cards_message p) (host p).
Definition set_trace (v : list effect) (p : page) : page :=
  mkPage (cards p) (swiper p) (document p) (timers p) v (cardCount p)
         (like p) (dislike p) (no_more_cards_message p) (host p).
Definition set_cardCount (v : Z) (p : page) : page :=
  mkPage (cards p) (swiper p) (document p) (timers p) (trace p) v
         (like p) (dislike p) (no_more_cards_message p) (host p).
Definition set_like (v : Indicator) (p : page) : page :=
  mkPage (cards p) (swiper p) (document p) (timers p) (trace p) (cardCount p)
         v (dislike p) (no_more_cards_message p) (host p).
Definition set_dislike (v : Indicator) (p : page) : page :=
  mkPage (cards p) (swiper p) (document p) (timers p) (trace p) (cardCount p)
         (like p) v (no_more_cards_message p) (host p).
Definition set_no_more_cards_message (v : string) (p : page) : page :=
  mkPage (cards p) (swiper p) (document p) (timers p) (trace p) (cardCount p)
         (like p) (dislike p) v (host p).
Definition set_host (v : Host) (p : page) : page :=
  mkPage (cards p) (swiper p) (document p) (timers p) (trace p) (cardCount p)
         (like p) (dislike p) (no_more_cards_message p) v.

(** A statement that mutates the card object [o]. *)
Definition upd_card (o : nat) (f : Card -> Card) (p : page) : page :=
  set_cards (alter f o (cards p)) p.

(** [document.addEventListener(type, l)]: a listener already in the list
    for this type is not added again. *)
Definition addEventListener (type : string) (l : listener) (p : page) : page :=
  if decide ((type, l) ∈ document p) then p
  else set_document (document p ++ [(type, l)]) p.

(** [document.removeEventListener(type, l)]. *)
Definition removeEventListener (type : string) (l : listener) (p : page) : page :=
  set_document (filter (λ x, x ≠ (type, l)) (document p)) p.

Definition emit (e : effect) (p : page) : page := set_trace (trace p ++ [e]) p.

(** [setTimeout(() => { this.element.remove(); }, ms)] of card object [o]. *)
Definition setTimeout (ms : Z) (o : nat) (p : page) : page :=
  set_timers (timers p ++ [(ms, o)]) p.

(** ** cardContainer.js: the closures handed to every card *)

(** [cardsEmpty()].  The [then]/[catch] continuation of its request is
    [cardsDepletedSettled] below. *)
Definition cardsEmpty (p : page) : page :=
  let p := emit (ConsoleLog "All cards have been swiped!") p in
  emit (Fetch "/cards-depleted" (JObject [("isEmpty", JBool true)])) p.

Definition cardsDepletedSettled (r : fetch_result) (p : page) : page :=
  match r with
  | JsonData data =>
      let p := emit (ConsoleLogData data) p in
      set_no_more_cards_message "block" p
  | NetworkError err | BadJson err => emit (ConsoleError ("Error: " ++ err)) p
  end.

(** The body of the closure [appendNewCard] passes as [onDismiss] (it
    has no name in the source; the design notes call it
    decrementLiveCount).  Its last statement, [appendNewCard;], names the
    function without calling it. *)
Definition decrementLiveCount (p : page) : page :=
  let p := set_cardCount (cardCount p - 1) p in
  let p := emit (ConsoleLog ("cardCount: " ++ pretty (cardCount p))) p in
  if (cardCount p <=? 0)%Z then cardsEmpty p else p.

(** [el.style.animationPlayState = 'running'; el.classList.toggle('trigger')]. *)
Definition replay (i : Indicator) : Indicator :=
  mkIndicator "running" (negb (trigger i)).

(** The bodies of the closures passed as [onLike] and [onDislike]. *)
Definition likeFeedback (name : string) (p : page) : page :=
  let p := emit (ConsoleLog (name ++ " liked")) p in
  set_like (replay (like p)) p.

Definition dislikeFeedback (name : string) (p : page) : page :=
  let p := emit (ConsoleLog (name ++ " disliked")) p in
  set_dislike (replay (dislike p)) p.

Definition run_callback (cb : callback) (p : page) : page :=
  match cb with
  | DismissClosure => decrementLiveCount p
  | LikeClosure name => likeFeedback name p
  | DislikeClosure name => dislikeFeedback name p
  end.

(** [if (typeof this.onX === 'function') this.onX()] in card object [o]. *)
Definition call (o : nat) (h : hook) (cb : option callback) (p : page) : page :=
  match cb with
  | Some f => run_callback f (emit (Invoke o h) p)
  | None => p
  end.

(** ** card.js *)

Module Card.

(** [#isTouchDevice]; [undefined > 0] is false. *)
Definition isTouchDevice (w : Capabilities) : bool :=
  ontouchstart_in_window w
  || match maxTouchPoints w with Some n => (0 <? n)%Z | None => false end
  || match msMaxTouchPoints w with Some n => (0 <? n)%Z | None => false end.

(** [#dismiss(direction)] of card object [o]. *)
Definition dismiss (o : nat) (direction : float) (p : page) : page :=
  match cards p !! o with
  | None => p
  | Some this =>
      let p := upd_card o (set_startPoint None) p in
      let p := removeEventListener "mouseup" (o, HandleMoveUp) p in
      let p := removeEventListener "mousemove" (o, HandleMouseMove) p in
      let p := removeEventListener "touchend" (o, HandleTouchEnd) p in
      let p := removeEventListener "touchmove" (o, HandleTouchMove) p in
      let p := upd_card o (on_element (set_transition "transform 1s")) p in
      let p := upd_card o (on_element (set_transform
                 (TranslateRotate (direction * innerWidth (host p)) (offsetY this)
                                  (45 * direction)))) p in
      let p := upd_card o (on_element (add_class "dismissing")) p in
      let p := setTimeout 1000 o p in
      let p := emit (ConsoleLog "About to send POST") p in
      let isLiked := (direction =? 1)%float in
      let p := emit (Fetch "/react"
                 (JObject [("carID", JString (to_string (carID this)));
                           ("swiped_right", JBool isLiked)])) p in
      let p := call o OnDismiss (onDismiss this) p in
      let p := if (direction =? 1)%float then call o OnLike (onLike this) p else p in
      if (direction =? -1)%float then call o OnDislike (onDislike this) p else p
  end.

(** The continuation of the [/react] request:
    [.then(data => console.log(data)).catch(error => console.error('Error:', error))]. *)
Definition reactSettled (r : fetch_result) (p : page) : page :=
  match r with
  | JsonData data => emit (ConsoleLogData data) p
  | NetworkError err | BadJson err => emit (ConsoleError ("Error: " ++ err)) p
  end.

(** [#handleMove(x, y)].  [None] is the TypeError of reading [.x] of a
    missing [#startPoint]; both callers test the start point first. *)
Definition handleMove (o : nat) (x y : float) (p : page) : option page :=
  this ← cards p !! o;
  start ← startPoint this;
  let ox := (x - px start)%float in
  let oy := (y - py start)%float in
  let p := upd_card o (set_offsetX (Some ox)) p in
  let p := upd_card o (set_offsetY (Some oy)) p in
  let rotate := (ox * 0.1)%float in
  let p := upd_card o (on_element (set_transform (TranslateRotate ox (Some oy) rotate))) p in
  if (clientWidth (element this) * 0.7 <? abs ox)%float
  then Some (dismiss o (if (0 <? ox)%float then 1%float else (-1)%float) p)
  else Some p.

(** [#handleMouseMove(e)]; [e.preventDefault()] changes nothing here. *)
Definition handleMouseMove (o : nat) (x y : float) (p : page) : page :=
  match cards p !! o with
  | None => p
  | Some this =>
      match startPoint this with
      | None => p
      | Some _ => default p (handleMove o x y p)
      end
  end.

(** [#handleMoveUp()]. *)
Definition handleMoveUp (o : nat) (p : page) : page :=
  let p := upd_card o (set_startPoint None) p in
  let p := removeEventListener "mousemove" (o, HandleMouseMove) p in
  upd_card o (on_element (set_transform NoTransform)) p.

(** [#handleTouchMove(e)], given [e.changedTouches[0]]. *)
Definition handleTouchMove (o : nat) (touch : option point) (p : page) : page :=
  match cards p !! o with
  | None => p
  | Some this =>
      match startPoint this, touch with
      | Some _, Some t => default p (handleMove o (px t) (py t) p)
      | _, _ => p
      end
  end.

(** [#handleTouchEnd()]. *)
Definition handleTouchEnd (o : nat) (p : page) : page :=
  let p := upd_card o (set_startPoint None) p in
  let p := removeEventListener "touchmove" (o, HandleTouchMove) p in
  upd_card o (on_element (set_transform NoTransform)) p.

(** The [touchstart] listener [#listenToTouchEvents] puts on the element. *)
Definition onTouchStart (o : nat) (touch : option point) (p : page) : page :=
  match touch with
  | None => p
  | Some t =>
      let p := upd_card o (set_startPoint (Some (mkPoint (px t) (py t)))) p in
      let p := addEventListener "touchmove" (o, HandleTouchMove) p in
      upd_card o (on_element (set_transition "transform 0s")) p
  end.

(** The [mousedown] listener [#listenToMouseEvents] puts on the element. *)
Definition onMouseDown (o : nat) (x y : float) (p : page) : page :=
  let p := upd_card o (set_startPoint (Some (mkPoint x y))) p in
  let p := addEventListener "mousemove" (o, HandleMouseMove) p in
  upd_card o (on_element (set_transition "transform 0s")) p.

(** [element.addEventListener(type, ...)] with a fresh closure. *)
Definition listen (type : string) (e : Element) : Element :=
  set_listeners (listeners e ++ [type]) e.

Definition listenToTouchEvents (o : nat) (p : page) : page :=
  let p := upd_card o (on_element (listen "touchstart")) p in
  let p := addEventListener "touchend" (o, HandleTouchEnd) p in
  addEventListener "cancel" (o, HandleTouchEnd) p.

Definition listenToMouseEvents (o : nat) (p : page) : page :=
  let p := upd_card o (on_element (listen "mousedown")) p in
  let p := addEventListener "mouseup" (o, HandleMoveUp) p in
  upd_card o (on_element (listen "dragstart")) p.

(** The arguments of [new Card({...})]. *)
Record CardArgs := mkCardArgs {
  arg_carID : json; arg_imageUrl : string; arg_carName : string; arg_details : string;
  arg_onDismiss : option callback; arg_onLike : option callback;
  arg_onDislike : option callback }.

(** The element [#init] builds: a [div.card] holding the image and the
    info block, not yet in the document. *)
Definition createElement (a : CardArgs) (width : float) : Element :=
  mkElement ["card"] (to_string (arg_carID a))
            (mkContent ("Image of " ++ arg_carName a)
                       ("/static/cars/" ++ arg_imageUrl a ++ ".jpg")
                       (arg_carName a) (arg_details a))
            "" NoTransform None [] width false.

(** [#init] of the card object [o], once [this.element] is set. *)
Definition init (o : nat) (p : page) : page :=
  if isTouchDevice (capabilities (host p))
  then listenToTouchEvents o p
  else listenToMouseEvents o p.

(** [new Card(a)]: the new object's index and the page after [#init]. *)
Definition constructor (a : CardArgs) (p : page) : nat * page :=
  let o := length (cards p) in
  let this := mkCard (arg_carID a) (arg_imageUrl a) (arg_carName a) (arg_details a)
                     (arg_onDismiss a) (arg_onLike a) (arg_onDislike a)
                     None None None (createElement a (cardWidth (host p))) in
  (o, init o (set_cards (cards p ++ [this]) p)).

End Card.

(** ** cardContainer.js: the deck *)

Record CarData := mkCarData {
  data_carID : json; data_imageUrl : string; data_carName : string;
  data_details : string }.

(** [swiper.querySelectorAll('.card:not(.dismissing)')]. *)
Definition live_card (p : page) (o : nat) : bool :=
  match cards p !! o with
  | Some c => bool_decide ("card" ∈ classList (element c))
              && negb (bool_decide ("dismissing" ∈ classList (element c)))
  | None => false
  end.

Definition querySelectorAll (p : page) : list nat :=
  filter (λ o, live_card p o = true) (swiper p).

(** [cards.forEach((card, index) => card.style.setProperty('--i', index))]. *)
Fixpoint setIndices (index : nat) (sel : list nat) (p : page) : page :=
  match sel with
  | [] => p
  | o :: rest =>
      setIndices (S index) rest (upd_card o (on_element (set_stack_index (Some index))) p)
  end.

(** [swiper.append(card.element)] for an element that has no parent yet. *)
Definition append (o : nat) (p : page) : page :=
  let p := set_swiper (swiper p ++ [o]) p in
  upd_card o (on_element (set_attached true)) p.

Definition appendNewCard (d : CarData) (p : page) : page :=
  let '(card, p) :=
    Card.constructor
      (Card.mkCardArgs (data_carID d) (data_imageUrl d) (data_carName d) (data_details d)
                       (Some DismissClosure)
                       (Some (LikeClosure (data_carName d)))
                       (Some (DislikeClosure (data_carName d)))) p in
  let p := set_cardCount (cardCount p + 1) p in
  let p := emit (ConsoleLog ("card" ++ pretty (cardCount p) ++ " added")) p in
  let p := append card p in
  setIndices 0 (querySelectorAll p) p.

(** [cars.forEach((carData) => { appendNewCard(carData); })]. *)
Definition load (cars : list CarData) (p : page) : page :=
  foldl (λ p d, appendNewCard d p) p cars.

(** The page before the scripts run: an empty [#swiper], [cardCount = 0]. *)
Definition blank (h : Host) : page :=
  mkPage [] [] [] [] [] 0 (mkIndicator "" false) (mkIndicator "" false) "" h.

(** ** The event loop *)

(** [this.element.remove()]. *)
Definition remove (o : nat) (p : page) : page :=
  let p := set_swiper (filter (λ c, c ≠ o) (swiper p)) p in
  upd_card o (on_element (set_attached false)) p.

Inductive event :=
| MouseDown (o : nat) (x y : float)        (* the user presses on card o's element *)
| DragStart (o : nat)                      (* dragstart on the element: preventDefault only *)
| TouchStart (o : nat) (touch : option point)  (* changedTouches[0] *)
| MouseMove (x y : float)
| MouseUp
| TouchMove (touch : option point)
| TouchEnd
| Cancel
| TimerFires                                  (* the oldest pending timer fires *)
| ReactSettled (r : fetch_result)
| CardsDepletedSettled (r : fetch_result)
| HostChanged (h : Host).                  (* resize, device emulation, a touch screen plugged in *)

(** The user can only reach an element that is in the document, and the
    element only reacts to the event types it listens to. *)
Definition targets (p : page) (o : nat) (type : string) : bool :=
  match cards p !! o with
  | Some c => attached (element c) && bool_decide (type ∈ listeners (element c))
  | None => false
  end.

(** Call the function object [l] with the event [e]. *)
Definition invoke (l : listener) (e : event) (p : page) : page :=
  match l.2, e with
  | HandleMoveUp, _ => Card.handleMoveUp l.1 p
  | HandleTouchEnd, _ => Card.handleTouchEnd l.1 p
  | HandleMouseMove, MouseMove x y => Card.handleMouseMove l.1 x y p
  | HandleTouchMove, TouchMove t => Card.handleTouchMove l.1 t p
  | _, _ => p
  end.

(** Dispatch on [document]: the listeners bound for [type] when the
    dispatch starts are called in the order they were added; one that an
    earlier listener has removed in the meantime is skipped.  (No
    listener of these scripts adds a listener to [document] while a
    dispatch on [document] runs, so being bound is being in the list.) *)
Definition dispatch (type : string) (e : event) (p : page) : page :=
  foldl (λ p l, if decide ((type, l) ∈ document p) then invoke l e p else p) p
        ((filter (λ x, x.1 = type) (document p)).*2).

Definition step (p : page) (e : event) : page :=
  match e with
  | MouseDown o x y => if targets p o "mousedown" then Card.onMouseDown o x y p else p
  | DragStart o => p
  | TouchStart o t => if targets p o "touchstart" then Card.onTouchStart o t p else p
  | MouseMove _ _ => dispatch "mousemove" e p
  | MouseUp => dispatch "mouseup" e p
  | TouchMove _ => dispatch "touchmove" e p
  | TouchEnd => dispatch "touchend" e p
  | Cancel => dispatch "cancel" e p
  | TimerFires =>
      match timers p with
      | [] => p
      | (_, o) :: rest => remove o (set_timers rest p)
      end
  | ReactSettled r => Card.reactSettled r p
  | CardsDepletedSettled r => cardsDepletedSettled r p
  | HostChanged h => set_host h p
  end.

Definition run (p : page) (events : list event) : page := foldl step p events.

(** ** ajax.js: the like-counter toggler *)

Module Ajax.









End Ajax.

(** * The vocabulary of the statements *)

(** ** What changes and what stays *)

(** [stable c c']: the card object [c'] is [c] at a later moment.  Its
    constructor arguments, the listeners and the layout width of its
    element stay; class names are only added; an element out of the
    document is never put back. *)
Record stable (c c' : Card) : Prop := mkStable {
  stable_carID : carID c' = carID c;
  stable_onDismiss : onDismiss c' = onDismiss c;
  stable_onLike : onLike c' = onLike c;
  stable_onDislike : onDislike c' = onDislike c;
  stable_listeners : listeners (element c') = listeners (element c);
  stable_layoutWidth : layoutWidth (element c') = layoutWidth (element c);
  stable_attached : attached (element c') = true -> attached (element c) = true;
  stable_classList : ∀ x, x ∈ classList (element c) -> x ∈ classList (element c') }.

(** [acts o p p']: going from [p] to [p'], only the card object [o] and
    listeners of [o] changed, and no listener was added to [document]. *)
Record acts (o : nat) (p p' : page) : Prop := mkActs {
  acts_host : host p' = host p;
  acts_swiper : swiper p' = swiper p;
  acts_length : length (cards p') = length (cards p);
  acts_others : ∀ o', o' ≠ o -> cards p' !! o' = cards p !! o';
  acts_own : ∀ c, cards p !! o = Some c -> ∃ c', cards p' !! o = Some c' ∧ stable c c';
  acts_sublist : document p' `sublist_of` document p;
  acts_keeps : filter (λ x, x.2.1 ≠ o) (document p')
               = filter (λ x, x.2.1 ≠ o) (document p) }.

(** ** Traces and commits *)

(** What a callback writes to the trace. *)
Definition callback_output (cb : callback) (p : page) : list effect :=
  match cb with
  | DismissClosure =>
      ConsoleLog ("cardCount: " ++ pretty (cardCount p - 1)%Z)
      :: (if (cardCount p - 1 <=? 0)%Z
          then [ConsoleLog "All cards have been swiped!";
                Fetch "/cards-depleted" (JObject [("isEmpty", JBool true)])]
          else [])
  | LikeClosure name => [ConsoleLog (name ++ " liked")]
  | DislikeClosure name => [ConsoleLog (name ++ " disliked")]
  end.

Definition call_output (o : nat) (h : hook) (cb : option callback) (p : page) : list effect :=
  match cb with
  | Some f => Invoke o h :: callback_output f p
  | None => []
  end.

(** The card object after [#dismiss(direction)]. *)
Definition dismissed (direction : float) (w : float) (this : Card) : Card :=
  on_element (add_class "dismissing")
    (on_element (set_transform (TranslateRotate (direction * w) (offsetY this) (45 * direction)))
      (on_element (set_transition "transform 1s") (set_startPoint None this))).

(** The four listeners [#dismiss] removes. *)
Definition removed_on_dismiss (o : nat) : list (string * listener) :=
  [("mouseup", (o, HandleMoveUp)); ("mousemove", (o, HandleMouseMove));
   ("touchend", (o, HandleTouchEnd)); ("touchmove", (o, HandleTouchMove))].

(** The hooks the card object [o] called, in order. *)
Definition invocations (o : nat) (tr : list effect) : list hook :=
  omap (λ e, match e with
             | Invoke o' h => if decide (o' = o) then Some h else None
             | _ => None
             end) tr.

(** The bodies of the requests sent to [url], in order. *)
Definition posts (url : string) (tr : list effect) : list json :=
  omap (λ e, match e with
             | Fetch u body => if String.eqb u url then Some body else None
             | _ => None
             end) tr.

(** [h] if the callback is a function, nothing otherwise. *)
Definition called (cb : option callback) (h : hook) : list hook :=
  match cb with Some _ => [h] | None => [] end.


(** The direction [#handleMove] passes to [#dismiss]. *)
Definition direction_of (right : bool) : float := if right then 1%float else (-1)%float.

(** The start listeners a card puts on its element, and the end
    listeners it puts on [document], by input family. *)
Definition start_listeners (touch : bool) : list string :=
  if touch then ["touchstart"] else ["mousedown"; "dragstart"].

Definition end_listeners (touch : bool) (o : nat) : list (string * listener) :=
  if touch then [("touchend", (o, HandleTouchEnd)); ("cancel", (o, HandleTouchEnd))]
  else [("mouseup", (o, HandleMoveUp))].

Definition move_listener (touch : bool) (o : nat) : string * listener :=
  if touch then ("touchmove", (o, HandleTouchMove)) else ("mousemove", (o, HandleMouseMove)).

(** The arguments [appendNewCard] passes to [new Card]. *)
Definition card_args (d : CarData) : Card.CardArgs :=
  Card.mkCardArgs (data_carID d) (data_imageUrl d) (data_carName d) (data_details d)
                  (Some DismissClosure) (Some (LikeClosure (data_carName d)))
                  (Some (DislikeClosure (data_carName d))).

(** The card object [appendNewCard] has built and appended, before the
    stacking indices are recomputed. *)
Definition new_card (d : CarData) (h : Host) : Card :=
  mkCard (data_carID d) (data_imageUrl d) (data_carName d) (data_details d)
         (Some DismissClosure) (Some (LikeClosure (data_carName d)))
         (Some (DislikeClosure (data_carName d))) None None None
         (mkElement ["card"] (to_string (data_carID d))
            (mkContent ("Image of " ++ data_carName d)
                       ("/static/cars/" ++ data_imageUrl d ++ ".jpg")
                       (data_carName d) (data_details d))
            "" NoTransform None
            (start_listeners (Card.isTouchDevice (capabilities h)))
            (cardWidth h) true).

(** The page when [appendNewCard] reaches its [querySelectorAll]. *)
Definition appended (d : CarData) (p : page) : page :=
  let q := (Card.constructor (card_args d) p).2 in
  let q := set_cardCount (cardCount q + 1) q in
  let q := emit (ConsoleLog ("card" ++ pretty (cardCount q) ++ " added")) q in
  append (length (cards p)) q.

(** [c'] is [c] up to the stacking index. *)
Definition same_but_index (c c' : Card) : Prop :=
  c' = on_element (set_stack_index (stack_index (element c'))) c.

(** The body of the deck-exhausted notification. *)
Definition depleted_body : json := JObject [("isEmpty", JBool true)].

(** ** Numbers *)


(** ** One card's view of the page *)

(** What the listeners of the card object [o] read and write: the object
    itself, its own listeners on [document], and the host. *)
Record view := mkView {
  v_card : option Card;
  v_document : list (string * listener);
  v_host : Host }.

Definition own (o : nat) (x : string * listener) : Prop := x.2.1 = o.

Global Instance own_dec o x : Decision (own o x).
Proof. unfold own. apply _. Defined.

Definition view_of (o : nat) (p : page) : view :=
  mkView (cards p !! o) (filter (own o) (document p)) (host p).

(** The card object after a drag-end listener, after a move, and after
    a drag start. *)
Definition settled (c : Card) : Card :=
  on_element (set_transform NoTransform) (set_startPoint None c).

Definition moved (ox oy : float) (c : Card) : Card :=
  on_element (set_transform (TranslateRotate ox (Some oy) (ox * 0.1)))
    (set_offsetY (Some oy) (set_offsetX (Some ox) c)).

Definition started (start : point) (c : Card) : Card :=
  on_element (set_transition "transform 0s") (set_startPoint (Some start) c).

(** [Math.abs(ox) > clientWidth * 0.7] on the card object [c]. *)
Definition beyond_threshold (c : Card) (ox : float) : bool :=
  (clientWidth (element c) * 0.7 <? abs ox)%float.

(** The listeners of one card, read on its view. *)
Definition local_settle (move : string * listener) (v : view) : view :=
  mkView (settled <$> v_card v) (filter (λ x, x ≠ move) (v_document v)) (v_host v).

Definition local_move (o : nat) (x y : float) (v : view) : view :=
  match v_card v with
  | Some this =>
      match startPoint this with
      | Some start =>
          let ox := (x - px start)%float in
          let oy := (y - py start)%float in
          if beyond_threshold this ox
          then mkView (Some (dismissed (direction_of (0 <? ox)%float)
                                       (innerWidth (v_host v)) (moved ox oy this)))
                      (filter (λ x, x ∉ removed_on_dismiss o) (v_document v))
                      (v_host v)
          else mkView (Some (moved ox oy this)) (v_document v) (v_host v)
      | None => v
      end
  | None => v
  end.

Definition local_start (move : string * listener) (start : point) (v : view) : view :=
  mkView (started start <$> v_card v)
         (if decide (move ∈ v_document v) then v_document v else v_document v ++ [move])
         (v_host v).

Definition local_invoke (l : listener) (e : event) (v : view) : view :=
  match l.2, e with
  | HandleMoveUp, _ => local_settle ("mousemove", (l.1, HandleMouseMove)) v
  | HandleTouchEnd, _ => local_settle ("touchmove", (l.1, HandleTouchMove)) v
  | HandleMouseMove, MouseMove x y => local_move l.1 x y v
  | HandleTouchMove, TouchMove (Some t) => local_move l.1 (px t) (py t) v
  | _, _ => v
  end.

Definition local_dispatch (type : string) (e : event) (v : view) : view :=
  foldl (λ v l, if decide ((type, l) ∈ v_document v) then local_invoke l e v else v) v
        ((filter (λ x, x.1 = type) (v_document v)).*2).

Definition local_targets (v : view) (type : string) : bool :=
  match v_card v with
  | Some c => attached (element c) && bool_decide (type ∈ listeners (element c))
  | None => false
  end.

(** One event, as the card object [o] sees it; [hit] tells whether the
    timer that fires is a timer of [o]. *)
Definition local_step (o : nat) (hit : bool) (v : view) (e : event) : view :=
  match e with
  | MouseDown o' x y =>
      if decide (o' = o) then
        if local_targets v "mousedown"
        then local_start ("mousemove", (o, HandleMouseMove)) (mkPoint x y) v else v
      else v
  | TouchStart o' (Some t) =>
      if decide (o' = o) then
        if local_targets v "touchstart"
        then local_start ("touchmove", (o, HandleTouchMove)) (mkPoint (px t) (py t)) v else v
      else v
  | MouseMove _ _ => local_dispatch "mousemove" e v
  | MouseUp => local_dispatch "mouseup" e v
  | TouchMove _ => local_dispatch "touchmove" e v
  | TouchEnd => local_dispatch "touchend" e v
  | Cancel => local_dispatch "cancel" e v
  | TimerFires =>
      if hit then mkView (on_element (set_attached false) <$> v_card v) (v_document v) (v_host v)
      else v
  | HostChanged h => mkView (v_card v) (v_document v) h
  | _ => v
  end.

(** Does the oldest pending timer belong to [o]? *)
Definition timer_hits (o : nat) (p : page) : bool :=
  match timers p with
  | (_, o') :: _ => bool_decide (o' = o)
  | [] => false
  end.

(** ** The states and events of a gesture *)


(** [Dragging]: a start point is recorded, and the card's listeners on
    [document] are the end listeners of its family and the move listener. *)
Definition dragging (touch : bool) (o : nat) (this : Card) (start : point) (p : page) : Prop :=
  cards p !! o = Some this
  ∧ startPoint this = Some start
  ∧ filter (own o) (document p) = end_listeners touch o ++ [move_listener touch o].





Definition move_event (touch : bool) (pt : point) : event :=
  if touch then TouchMove (Some pt) else MouseMove (px pt) (py pt).


(** The listeners a committed card still has on [document]. *)
Definition left_after_commit (touch : bool) (o : nat) : list (string * listener) :=
  if touch then [("cancel", (o, HandleTouchEnd))] else [].


(** The card object [o] belongs to one input family: its element has the
    start listeners of that family and no others, and every listener it
    has on [document] is an end listener or the move listener of that
    family. *)
Definition in_family (touch : bool) (o : nat) (v : view) : Prop :=
  (∃ c, v_card v = Some c ∧ listeners (element c) = start_listeners touch)
  ∧ ∀ x, x ∈ v_document v -> x ∈ end_listeners touch o ∨ x = move_listener touch o.

(** Every listener on [document] belongs to a card object that exists. *)
Definition owners_exist (p : page) : Prop :=
  ∀ x, x ∈ document p -> x.2.1 < length (cards p).


(** ** A deck of one, on a desktop and on a phone *)

Definition desktop : Host := mkHost 1000 300 (mkCapabilities false (Some 0%Z) None).

Definition phone : Host := mkHost 400 300 (mkCapabilities true (Some 5%Z) None).

Definition audi : CarData := mkCarData (JNumber 7) "audi_a4" "Audi A4" "Saloon, 2019".

Definition origin : point := mkPoint 0 0.

(** The card of the deck, as it is after loading. *)
Definition audi_card (h : Host) : Card :=
  on_element (set_stack_index (Some 0)) (new_card audi h).

Definition desktop_deck : page := load [audi] (blank desktop).

Definition phone_deck : page := load [audi] (blank phone).



(** * Verification *)

(** ** What no statement of a listener changes *)

Lemma stable_refl c : stable c c.
Proof. by split. Qed.

Lemma stable_trans c1 c2 c3 : stable c1 c2 -> stable c2 c3 -> stable c1 c3.
Proof.
  intros [] []; split; try congruence; auto.
Qed.

Lemma stable_set_startPoint v c : stable c (set_startPoint v c).
Proof. by split. Qed.

Lemma stable_set_offsetX v c : stable c (set_offsetX v c).
Proof. by split. Qed.

Lemma stable_set_offsetY v c : stable c (set_offsetY v c).
Proof. by split. Qed.

Lemma stable_set_transition v c : stable c (on_element (set_transition v) c).
Proof. by split. Qed.

Lemma stable_set_transform v c : stable c (on_element (set_transform v) c).
Proof. by split. Qed.

Lemma stable_set_stack_index v c : stable c (on_element (set_stack_index v) c).
Proof. by split. Qed.

Lemma stable_detach c : stable c (on_element (set_attached false) c).
Proof. by split. Qed.

Lemma stable_add_class name c : stable c (on_element (add_class name) c).
Proof.
  split; try done; unfold add_class; simpl; case_decide; simpl; try done.
  intros x Hx. apply elem_of_app. by left.
Qed.

Create HintDb stable discriminated.

#[export] Hint Resolve stable_refl stable_set_startPoint stable_set_offsetX
  stable_set_offsetY stable_set_transition stable_set_transform
  stable_set_stack_index stable_detach stable_add_class : stable.

Lemma acts_refl o p : acts o p p.
Proof. split; eauto using stable_refl. Qed.

Lemma acts_trans o p1 p2 p3 : acts o p1 p2 -> acts o p2 p3 -> acts o p1 p3.
Proof.
  intros [] []; split; try congruence; eauto.
  - intros o' Ho'. rewrite acts_others1, acts_others0; done.
  - intros c Hc. destruct (acts_own0 c Hc) as (c2 & Hc2 & Hs).
    destruct (acts_own1 c2 Hc2) as (c3 & Hc3 & Hs').
    eauto using stable_trans.
  - by etrans.
Qed.

Lemma acts_upd_card o f p : (∀ c, stable c (f c)) -> acts o p (upd_card o f p).
Proof.
  intros Hf; split; simpl; try done.
  - apply length_alter.
  - intros o' Ho'. by apply list_lookup_alter_ne.
  - intros c Hc. rewrite list_lookup_alter_eq, Hc. eauto.
Qed.

Lemma acts_removeEventListener o type h p :
  acts o p (removeEventListener type (o, h) p).
Proof.
  split; simpl; eauto using stable_refl.
  - apply sublist_filter.
  - rewrite list_filter_filter. apply list_filter_iff.
    intros [t [o' h']]; simpl. split; [tauto|]. intros Ho'. split; [done|congruence].
Qed.

Lemma acts_emit o e p : acts o p (emit e p).
Proof. split; simpl; eauto using stable_refl. Qed.

Lemma acts_setTimeout o ms o' p : acts o p (setTimeout ms o' p).
Proof. split; simpl; eauto using stable_refl. Qed.

Lemma acts_run_callback o cb p : acts o p (run_callback cb p).
Proof.
  destruct cb; simpl; unfold decrementLiveCount, likeFeedback, dislikeFeedback, cardsEmpty;
    try case_match; split; simpl; eauto using stable_refl.
Qed.

Lemma acts_call o o' h cb p : acts o p (call o' h cb p).
Proof.
  destruct cb; simpl; [|apply acts_refl].
  eapply acts_trans; [apply acts_emit|apply acts_run_callback].
Qed.

(** Chains of statements: peel the last statement off and recurse. *)
Ltac acts_chain :=
  repeat first
    [ apply acts_refl
    | apply acts_call
    | apply acts_run_callback
    | (eapply acts_trans;
       [| first [ apply acts_upd_card; auto with stable
                | apply acts_removeEventListener
                | apply acts_emit
                | apply acts_setTimeout
                | apply acts_call ] ]) ].

Lemma acts_dismiss o d p : acts o p (Card.dismiss o d p).
Proof.
  unfold Card.dismiss. destruct (cards p !! o); [|apply acts_refl].
  repeat case_match; acts_chain.
Qed.

Lemma acts_handleMove o x y p p' : Card.handleMove o x y p = Some p' -> acts o p p'.
Proof.
  unfold Card.handleMove. intros H.
  destruct (cards p !! o) as [this|]; simpl in H; [|done].
  destruct (startPoint this) as [start|]; simpl in H; [|done].
  case_match; simplify_eq.
  - eapply acts_trans; [|apply acts_dismiss]. acts_chain.
  - acts_chain.
Qed.

Lemma acts_handleMouseMove o x y p : acts o p (Card.handleMouseMove o x y p).
Proof.
  unfold Card.handleMouseMove. repeat case_match; try apply acts_refl.
  destruct (Card.handleMove o x y p) eqn:E; simpl; [|apply acts_refl].
  by eapply acts_handleMove.
Qed.

Lemma acts_handleTouchMove o t p : acts o p (Card.handleTouchMove o t p).
Proof.
  unfold Card.handleTouchMove. repeat case_match; try apply acts_refl.
  destruct (Card.handleMove _ _ _ _) eqn:E; simpl; [|apply acts_refl].
  by eapply acts_handleMove.
Qed.

Lemma acts_handleMoveUp o p : acts o p (Card.handleMoveUp o p).
Proof. unfold Card.handleMoveUp. acts_chain. Qed.

Lemma acts_handleTouchEnd o p : acts o p (Card.handleTouchEnd o p).
Proof. unfold Card.handleTouchEnd. acts_chain. Qed.

Lemma acts_invoke l e p : acts l.1 p (invoke l e p).
Proof.
  unfold invoke. destruct (l.2), e;
    auto using acts_refl, acts_handleMoveUp, acts_handleTouchEnd,
               acts_handleMouseMove, acts_handleTouchMove.
Qed.

(** ** What a commit does, field by field *)

Lemma trace_run_callback cb p :
  trace (run_callback cb p) = trace p ++ callback_output cb p.
Proof.
  destruct cb; simpl; try done.
  unfold decrementLiveCount; simpl. case_match; simpl; [|done].
  by rewrite <- !(assoc_L (++)).
Qed.

Lemma cards_run_callback cb p : cards (run_callback cb p) = cards p.
Proof. destruct cb; simpl; try done. unfold decrementLiveCount; simpl. by case_match. Qed.

Lemma document_run_callback cb p : document (run_callback cb p) = document p.
Proof. destruct cb; simpl; try done. unfold decrementLiveCount; simpl. by case_match. Qed.


Lemma cards_call o h cb p : cards (call o h cb p) = cards p.
Proof. destruct cb; simpl; [|done]. by rewrite cards_run_callback. Qed.

Lemma document_call o h cb p : document (call o h cb p) = document p.
Proof. destruct cb; simpl; [|done]. by rewrite document_run_callback. Qed.


Lemma trace_call o h cb p : trace (call o h cb p) = trace p ++ call_output o h cb p.
Proof.
  destruct cb; simpl; [|by rewrite app_nil_r].
  rewrite trace_run_callback. simpl. by rewrite <- (assoc_L (++)).
Qed.

Lemma alter_alter {A} (f g : A -> A) (i : nat) (l : list A) :
  alter f i (alter g i l) = alter (f ∘ g) i l.
Proof. revert i; induction l as [|a l IH]; intros [|i]; simpl; try done. f_equal. apply IH. Qed.

Lemma alter_lookup {A} (f : A -> A) (i : nat) (l : list A) (x : A) :
  l !! i = Some x -> alter f i l = <[i := f x]> l.
Proof.
  intros Hx. rewrite list_insert_alter. apply list_alter_ext; [|done].
  intros y Hy. by simplify_eq.
Qed.

Lemma dismiss_cards o d p this :
  cards p !! o = Some this ->
  cards (Card.dismiss o d p) = <[o := dismissed d (innerWidth (host p)) this]> (cards p).
Proof.
  intros Hthis. unfold Card.dismiss. rewrite Hthis. cbv zeta.
  repeat case_match; rewrite ?cards_call; simpl;
    rewrite !alter_alter, (alter_lookup _ _ _ _ Hthis); done.
Qed.

Lemma dismiss_document o d p :
  is_Some (cards p !! o) ->
  document (Card.dismiss o d p) = filter (λ x, x ∉ removed_on_dismiss o) (document p).
Proof.
  intros [this Hthis]. unfold Card.dismiss. rewrite Hthis. cbv zeta.
  repeat case_match; rewrite ?document_call; simpl;
    rewrite !list_filter_filter; apply list_filter_iff; intros x;
    unfold removed_on_dismiss; rewrite !not_elem_of_cons; pose proof (not_elem_of_nil x); tauto.
Qed.


(** ** Reading the trace *)

Lemma invocations_app o tr1 tr2 :
  invocations o (tr1 ++ tr2) = invocations o tr1 ++ invocations o tr2.
Proof. apply omap_app. Qed.

Lemma posts_app url tr1 tr2 : posts url (tr1 ++ tr2) = posts url tr1 ++ posts url tr2.
Proof. apply omap_app. Qed.

Lemma invocations_callback_output o cb p : invocations o (callback_output cb p) = [].
Proof. destruct cb; simpl; try done. by case_match. Qed.


Lemma invocations_call o h cb p :
  invocations o (trace (call o h cb p))
  = invocations o (trace p) ++ called cb h.
Proof.
  rewrite trace_call, invocations_app. f_equal.
  destruct cb; simpl; [|done]. rewrite decide_True by done.
  by rewrite invocations_callback_output.
Qed.


(** Every commit is a call [#dismiss(1)] or [#dismiss(-1)] made by
    [#handleMove] in the turn of the move event itself. *)
Lemma handleMove_commits_at_once o x y p this start :
  cards p !! o = Some this -> startPoint this = Some start ->
  Card.handleMove o x y p
  = Some (let ox := (x - px start)%float in
          let oy := (y - py start)%float in
          let q := upd_card o (on_element (set_transform
                                 (TranslateRotate ox (Some oy) (ox * 0.1))))
                     (upd_card o (set_offsetY (Some oy))
                        (upd_card o (set_offsetX (Some ox)) p)) in
          if (clientWidth (element this) * 0.7 <? abs ox)%float
          then Card.dismiss o (if (0 <? ox)%float then 1%float else (-1)%float) q
          else q).
Proof.
  intros Hthis Hstart. unfold Card.handleMove. rewrite Hthis; simpl. rewrite Hstart; simpl.
  by case_match.
Qed.


Lemma dismiss_invocations o d p this :
  cards p !! o = Some this ->
  invocations o (trace (Card.dismiss o d p))
  = invocations o (trace p)
    ++ called (onDismiss this) OnDismiss
    ++ (if (d =? 1)%float then called (onLike this) OnLike else [])
    ++ (if (d =? -1)%float then called (onDislike this) OnDislike else []).
Proof.
  intros Hthis. unfold Card.dismiss. rewrite Hthis. cbv zeta.
  destruct (d =? -1)%float, (d =? 1)%float; rewrite ?invocations_call; simpl;
    rewrite !invocations_app; simpl; rewrite ?app_nil_r, <- ?(assoc_L (++)); done.
Qed.

(** C5.  For every commit -- [#dismiss] called by [#handleMove] with
    direction 1 or -1 -- on a card whose three callbacks are supplied:
    the card calls [onDismiss] once, and then exactly one of [onLike]
    (direction 1) and [onDislike] (direction -1). *)
Theorem commit_calls_onDismiss_then_one_of_onLike_onDislike :
  ∀ (o : nat) (p : page) (this : Card) (right : bool),
    cards p !! o = Some this ->
    is_Some (onDismiss this) -> is_Some (onLike this) -> is_Some (onDislike this) ->
    invocations o (trace (Card.dismiss o (direction_of right) p))
    = invocations o (trace p) ++ [OnDismiss; if right then OnLike else OnDislike].
Proof.
  intros o p this right Hthis [? HD] [? HL] [? HK].
  rewrite (dismiss_invocations _ _ _ _ Hthis), HD, HL, HK. by destruct right.
Qed.


(** ** Building the deck *)

Lemma cards_addEventListener t l p : cards (addEventListener t l p) = cards p.
Proof. unfold addEventListener. by case_decide. Qed.

Lemma swiper_addEventListener t l p : swiper (addEventListener t l p) = swiper p.
Proof. unfold addEventListener. by case_decide. Qed.

Lemma timers_addEventListener t l p : timers (addEventListener t l p) = timers p.
Proof. unfold addEventListener. by case_decide. Qed.

Lemma trace_addEventListener t l p : trace (addEventListener t l p) = trace p.
Proof. unfold addEventListener. by case_decide. Qed.

Lemma cardCount_addEventListener t l p : cardCount (addEventListener t l p) = cardCount p.
Proof. unfold addEventListener. by case_decide. Qed.

Lemma host_addEventListener t l p : host (addEventListener t l p) = host p.
Proof. unfold addEventListener. by case_decide. Qed.

Lemma elem_of_addEventListener t l p x :
  x ∈ document (addEventListener t l p) ↔ x ∈ document p ∨ x = (t, l).
Proof.
  unfold addEventListener. case_decide; simpl.
  - split; [by left|]. by intros [?| ->].
  - rewrite elem_of_app, list_elem_of_singleton. done.
Qed.

Lemma NoDup_addEventListener t l p :
  NoDup (document p) -> NoDup (document (addEventListener t l p)).
Proof.
  intros Hnd. unfold addEventListener. case_decide; simpl; [done|].
  apply NoDup_app; split_and!; [done| |apply NoDup_singleton].
  intros x Hx ->%list_elem_of_singleton. done.
Qed.

Lemma appendNewCard_appended d p :
  appendNewCard d p = setIndices 0 (querySelectorAll (appended d p)) (appended d p).
Proof. reflexivity. Qed.

Lemma alter_snoc {A} (f : A -> A) (l : list A) (x : A) :
  alter f (length l) (l ++ [x]) = l ++ [f x].
Proof.
  replace (length l) with (length l + 0) by lia. by rewrite alter_app_r.
Qed.

Lemma cards_appended d p : cards (appended d p) = cards p ++ [new_card d (host p)].
Proof.
  unfold appended, Card.constructor, Card.init, Card.listenToTouchEvents,
    Card.listenToMouseEvents, new_card; simpl.
  destruct (Card.isTouchDevice (capabilities (host p))); simpl;
    rewrite ?cards_addEventListener; simpl;
    rewrite ?cards_addEventListener; simpl;
    rewrite ?alter_alter, ?alter_snoc; done.
Qed.

Lemma swiper_appended d p : swiper (appended d p) = swiper p ++ [length (cards p)].
Proof.
  unfold appended, Card.constructor, Card.init, Card.listenToTouchEvents,
    Card.listenToMouseEvents; simpl.
  destruct (Card.isTouchDevice (capabilities (host p))); simpl;
    rewrite ?swiper_addEventListener; simpl; rewrite ?swiper_addEventListener; done.
Qed.

Lemma cardCount_appended d p : cardCount (appended d p) = (cardCount p + 1)%Z.
Proof.
  unfold appended, Card.constructor, Card.init, Card.listenToTouchEvents,
    Card.listenToMouseEvents; simpl.
  destruct (Card.isTouchDevice (capabilities (host p))); simpl;
    rewrite ?cardCount_addEventListener; simpl; rewrite ?cardCount_addEventListener; done.
Qed.

Lemma timers_appended d p : timers (appended d p) = timers p.
Proof.
  unfold appended, Card.constructor, Card.init, Card.listenToTouchEvents,
    Card.listenToMouseEvents; simpl.
  destruct (Card.isTouchDevice (capabilities (host p))); simpl;
    rewrite ?timers_addEventListener; simpl; rewrite ?timers_addEventListener; done.
Qed.

Lemma host_appended d p : host (appended d p) = host p.
Proof.
  unfold appended, Card.constructor, Card.init, Card.listenToTouchEvents,
    Card.listenToMouseEvents; simpl.
  destruct (Card.isTouchDevice (capabilities (host p))); simpl;
    rewrite ?host_addEventListener; simpl; rewrite ?host_addEventListener; done.
Qed.

Lemma trace_appended d p :
  trace (appended d p)
  = trace p ++ [ConsoleLog ("card" ++ pretty (cardCount p + 1)%Z ++ " added")].
Proof.
  unfold appended, Card.constructor, Card.init, Card.listenToTouchEvents,
    Card.listenToMouseEvents; simpl.
  destruct (Card.isTouchDevice (capabilities (host p))); simpl;
    rewrite ?trace_addEventListener; simpl;
    rewrite ?trace_addEventListener, ?cardCount_addEventListener; done.
Qed.

Lemma elem_of_document_appended d p x :
  x ∈ document (appended d p)
  ↔ x ∈ document p
    ∨ x ∈ end_listeners (Card.isTouchDevice (capabilities (host p))) (length (cards p)).
Proof.
  unfold appended, Card.constructor, Card.init, Card.listenToTouchEvents,
    Card.listenToMouseEvents, end_listeners; simpl.
  destruct (Card.isTouchDevice (capabilities (host p))); simpl;
    rewrite ?elem_of_addEventListener; simpl;
    rewrite ?elem_of_cons, ?elem_of_nil; tauto.
Qed.

Lemma NoDup_document_appended d p :
  NoDup (document p) -> NoDup (document (appended d p)).
Proof.
  intros Hnd.
  unfold appended, Card.constructor, Card.init, Card.listenToTouchEvents,
    Card.listenToMouseEvents; simpl.
  destruct (Card.isTouchDevice (capabilities (host p))); simpl;
    repeat apply NoDup_addEventListener; done.
Qed.

(** Recomputing the indices touches nothing but [--i]. *)
Lemma setIndices_fields i sel p :
  swiper (setIndices i sel p) = swiper p
  ∧ document (setIndices i sel p) = document p
  ∧ timers (setIndices i sel p) = timers p
  ∧ trace (setIndices i sel p) = trace p
  ∧ cardCount (setIndices i sel p) = cardCount p
  ∧ host (setIndices i sel p) = host p
  ∧ length (cards (setIndices i sel p)) = length (cards p).
Proof.
  revert i p. induction sel as [|o sel IH]; intros i p; simpl; [done|].
  destruct (IH (S i) (upd_card o (on_element (set_stack_index (Some i))) p))
    as (-> & -> & -> & -> & -> & -> & ->). simpl. by rewrite length_alter.
Qed.


Lemma setIndices_lookup i sel p o c :
  cards p !! o = Some c ->
  ∃ c', cards (setIndices i sel p) !! o = Some c' ∧ same_but_index c c'.
Proof.
  revert i p c. induction sel as [|o' sel IH]; intros i p c Hc; simpl.
  - exists c. split; [done|]. by destruct c as [? ? ? ? ? ? ? ? ? ? []].
  - destruct (decide (o' = o)) as [->|Hne].
    + edestruct (IH (S i) (upd_card o (on_element (set_stack_index (Some i))) p))
        as (c' & Hc' & Hsame).
      { simpl. rewrite list_lookup_alter_eq, Hc. done. }
      exists c'. split; [done|]. unfold same_but_index in *.
      rewrite Hsame at 1. by destruct c as [? ? ? ? ? ? ? ? ? ? []].
    + apply IH. simpl. by rewrite list_lookup_alter_ne.
Qed.




Lemma listeners_add_class name e : listeners (add_class name e) = listeners e.
Proof. unfold add_class. by case_decide. Qed.

Lemma attached_add_class name e : attached (add_class name e) = attached e.
Proof. unfold add_class. by case_decide. Qed.




(** ** The live count and the deck-exhausted notification *)

Lemma decrementLiveCount_spec p :
  cardCount (decrementLiveCount p) = (cardCount p - 1)%Z
  ∧ posts "/cards-depleted" (trace (decrementLiveCount p))
    = posts "/cards-depleted" (trace p)
      ++ (if (cardCount p - 1 <=? 0)%Z then [depleted_body] else []).
Proof.
  unfold decrementLiveCount; simpl. destruct (cardCount p - 1 <=? 0)%Z; simpl.
  - split; [done|]. rewrite <- !(assoc_L (++)), posts_app. simpl. done.
  - split; [done|]. rewrite posts_app. simpl. done.
Qed.

Lemma appendNewCard_count d p :
  cardCount (appendNewCard d p) = (cardCount p + 1)%Z
  ∧ posts "/cards-depleted" (trace (appendNewCard d p))
    = posts "/cards-depleted" (trace p).
Proof.
  rewrite appendNewCard_appended.
  destruct (setIndices_fields 0 (querySelectorAll (appended d p)) (appended d p))
    as (_ & _ & _ & -> & -> & _).
  rewrite cardCount_appended, trace_appended, posts_app. simpl.
  by rewrite app_nil_r.
Qed.

Lemma load_count cars p :
  cardCount (load cars p) = (cardCount p + Z.of_nat (length cars))%Z
  ∧ posts "/cards-depleted" (trace (load cars p)) = posts "/cards-depleted" (trace p).
Proof.
  revert p. induction cars as [|d cars IH]; intros p; simpl.
  - split; [lia|done].
  - destruct (IH (appendNewCard d p)) as [-> ->].
    destruct (appendNewCard_count d p) as [-> ->]. split; [lia|done].
Qed.

Lemma decrementLiveCount_iter (p : page) (k : nat) :
  cardCount (Nat.iter k decrementLiveCount p) = (cardCount p - Z.of_nat k)%Z
  ∧ posts "/cards-depleted" (trace (Nat.iter k decrementLiveCount p))
    = posts "/cards-depleted" (trace p)
      ++ replicate (Z.to_nat (Z.of_nat k + 1 - Z.max 1 (cardCount p))) depleted_body.
Proof.
  induction k as [|k [IHc IHt]].
  - simpl. split; [lia|]. replace (Z.to_nat _) with 0 by lia. by rewrite app_nil_r.
  - rewrite Nat.iter_succ.
    destruct (decrementLiveCount_spec (Nat.iter k decrementLiveCount p)) as [-> ->].
    rewrite IHc, IHt. split; [lia|]. rewrite <- (assoc_L (++)). f_equal.
    destruct (Z.leb_spec (cardCount p - Z.of_nat k - 1) 0).
    + replace (Z.to_nat (Z.of_nat (S k) + 1 - Z.max 1 (cardCount p)))
        with (S (Z.to_nat (Z.of_nat k + 1 - Z.max 1 (cardCount p)))) by lia.
      by rewrite replicate_S_end.
    + rewrite app_nil_r. f_equal. lia.
Qed.

(** C1, as the code has it.  Every call of the [onDismiss] closure takes
    one off [cardCount] and posts the notification when the new count is
    zero or below; the page keeps no flag that it was posted.  So after
    [k] calls from a count [c] the notification has been posted once for
    each call from the [max 1 c]-th on; and for a deck loaded with [n]
    cards, [k] calls post it [k + 1 - max 1 n] times: not before the
    [n]-th call, once at the [n]-th, once more at every call after it. *)
Theorem depleted_is_posted_at_every_decrement_to_zero_or_below :
  (∀ (p : page) (k : nat),
     cardCount (Nat.iter k decrementLiveCount p) = (cardCount p - Z.of_nat k)%Z
     ∧ posts "/cards-depleted" (trace (Nat.iter k decrementLiveCount p))
       = posts "/cards-depleted" (trace p)
         ++ replicate (Z.to_nat (Z.of_nat k + 1 - Z.max 1 (cardCount p))) depleted_body)
  ∧ (∀ (h : Host) (cars : list CarData) (k : nat),
     posts "/cards-depleted" (trace (Nat.iter k decrementLiveCount (load cars (blank h))))
     = replicate (k + 1 - Nat.max 1 (length cars)) depleted_body).
Proof.
  split; [apply decrementLiveCount_iter|].
  intros h cars k. destruct (decrementLiveCount_iter (load cars (blank h)) k) as [_ ->].
  destruct (load_count cars (blank h)) as [-> ->]. simpl. f_equal. lia.
Qed.

(** ** IEEE-754 facts the threshold test needs *)

Module IEEE.









(** [clientWidth * 0.7] is rounded: for a card 350 pixels wide it is just
    below 245, so an offset of exactly 245 pixels is beyond the threshold;
    for a card 300 pixels wide it is exactly 210, and 210 is not. *)
Example threshold_is_rounded :
  (350 * 0.7 <? abs 245)%float = true ∧ (300 * 0.7 <? abs 210)%float = false.
Proof. by vm_compute. Qed.

End IEEE.

(** ** One card's view of the page *)

Lemma filter_own_others o o' (doc doc' : list (string * listener)) :
  o ≠ o' ->
  filter (λ x, x.2.1 ≠ o') doc' = filter (λ x, x.2.1 ≠ o') doc ->
  filter (own o) doc' = filter (own o) doc.
Proof.
  intros Hne Heq.
  assert (Hf : ∀ l : list (string * listener),
            filter (own o) l = filter (own o) (filter (λ x, x.2.1 ≠ o') l)).
  { intros l. rewrite list_filter_filter. apply list_filter_iff.
    intros x; unfold own. split; [|tauto]. intros Hx. split; [done|congruence]. }
  by rewrite (Hf doc'), (Hf doc), Heq.
Qed.

(** A listener of another card leaves the view as it is. *)
Lemma acts_view o o' p p' : acts o' p p' -> o ≠ o' -> view_of o p' = view_of o p.
Proof.
  intros [] Hne. unfold view_of. f_equal; auto.
  by eapply filter_own_others.
Qed.

Lemma filter_own_remove o (x : string * listener) (doc : list (string * listener)) :
  filter (own o) (filter (λ y, y ≠ x) doc) = filter (λ y, y ≠ x) (filter (own o) doc).
Proof. rewrite !list_filter_filter. apply list_filter_iff. intros y. tauto. Qed.

Lemma view_handleMoveUp o p :
  view_of o (Card.handleMoveUp o p)
  = local_settle ("mousemove", (o, HandleMouseMove)) (view_of o p).
Proof.
  unfold view_of, local_settle, Card.handleMoveUp; simpl.
  rewrite alter_alter, list_lookup_alter_eq, filter_own_remove. done.
Qed.

Lemma view_handleTouchEnd o p :
  view_of o (Card.handleTouchEnd o p)
  = local_settle ("touchmove", (o, HandleTouchMove)) (view_of o p).
Proof.
  unfold view_of, local_settle, Card.handleTouchEnd; simpl.
  rewrite alter_alter, list_lookup_alter_eq, filter_own_remove. done.
Qed.

Lemma view_handleMove o x y p this start :
  cards p !! o = Some this -> startPoint this = Some start ->
  view_of o (default p (Card.handleMove o x y p)) = local_move o x y (view_of o p).
Proof.
  intros Hthis Hstart. unfold Card.handleMove, local_move, view_of; simpl.
  rewrite Hthis; simpl. rewrite Hstart; simpl.
  set (ox := (x - px start)%float). set (oy := (y - py start)%float).
  set (q := upd_card o _ (upd_card o _ (upd_card o _ p))).
  assert (Hq : cards q !! o = Some (moved ox oy this)).
  { unfold q; simpl. rewrite !alter_alter, list_lookup_alter_eq, Hthis. done. }
  unfold beyond_threshold. destruct (_ <? abs ox)%float; simpl.
  - rewrite (dismiss_cards _ _ _ _ Hq), dismiss_document by (by eexists).
    rewrite list_lookup_insert_eq by (by eapply lookup_lt_Some).
    f_equal.
    + rewrite !list_filter_filter. apply list_filter_iff. intros z. simpl. tauto.
    + by destruct (acts_dismiss o (direction_of (0 <? ox)%float) q).
  - f_equal. exact Hq.
Qed.

Lemma view_handleMouseMove o x y p :
  view_of o (Card.handleMouseMove o x y p) = local_move o x y (view_of o p).
Proof.
  unfold Card.handleMouseMove.
  destruct (cards p !! o) as [this|] eqn:Hthis.
  - destruct (startPoint this) as [start|] eqn:Hstart.
    + by eapply view_handleMove.
    + unfold local_move, view_of; simpl. by rewrite Hthis, Hstart.
  - unfold local_move, view_of; simpl. by rewrite Hthis.
Qed.

Lemma view_handleTouchMove o t p :
  view_of o (Card.handleTouchMove o (Some t) p) = local_move o (px t) (py t) (view_of o p).
Proof.
  unfold Card.handleTouchMove.
  destruct (cards p !! o) as [this|] eqn:Hthis.
  - destruct (startPoint this) as [start|] eqn:Hstart.
    + by eapply view_handleMove.
    + unfold local_move, view_of; simpl. by rewrite Hthis, Hstart.
  - unfold local_move, view_of; simpl. by rewrite Hthis.
Qed.

Lemma view_invoke_own l e p : view_of l.1 (invoke l e p) = local_invoke l e (view_of l.1 p).
Proof.
  destruct l as [o h]; unfold invoke, local_invoke; simpl.
  destruct h, e; try done;
    auto using view_handleMoveUp, view_handleTouchEnd, view_handleMouseMove.
  destruct touch as [t|]; [apply view_handleTouchMove|].
  unfold Card.handleTouchMove. by repeat case_match.
Qed.

Lemma view_invoke_other o l e p : o ≠ l.1 -> view_of o (invoke l e p) = view_of o p.
Proof. intros Hne. eapply acts_view; [apply acts_invoke|done]. Qed.

Lemma filter_fmap {A B} (f : A -> B) (P : B -> Prop) `{∀ y, Decision (P y)} (l : list A) :
  filter P (f <$> l) = f <$> filter (λ x, P (f x)) l.
Proof.
  induction l as [|a l IH]; [done|].
  rewrite fmap_cons, !filter_cons. case_decide; simpl; by rewrite IH.
Qed.

Lemma filter_owner_snapshot o type (doc : list (string * listener)) :
  filter (λ l : listener, l.1 = o) ((filter (λ x, x.1 = type) doc).*2)
  = (filter (λ x, x.1 = type) (filter (own o) doc)).*2.
Proof.
  rewrite filter_fmap. f_equal. rewrite !list_filter_filter.
  apply list_filter_iff. intros x. unfold own. tauto.
Qed.

Lemma elem_of_filter_own o type (l : listener) (doc : list (string * listener)) :
  l.1 = o -> (type, l) ∈ filter (own o) doc ↔ (type, l) ∈ doc.
Proof. intros Hl. rewrite list_elem_of_filter. unfold own; simpl. tauto. Qed.

Lemma view_dispatch_fold o type e (ls : list listener) p :
  view_of o (foldl (λ p l, if decide ((type, l) ∈ document p) then invoke l e p else p) p ls)
  = foldl (λ v l, if decide ((type, l) ∈ v_document v) then local_invoke l e v else v)
          (view_of o p) (filter (λ l : listener, l.1 = o) ls).
Proof.
  revert p. induction ls as [|l ls IH]; intros p; [done|].
  simpl. rewrite IH, filter_cons. destruct (decide (l.1 = o)) as [Hl|Hl]; simpl.
  - f_equal. destruct (decide ((type, l) ∈ document p)) as [Hin|Hin].
    + rewrite decide_True by (by apply elem_of_filter_own).
      subst o. apply view_invoke_own.
    + rewrite decide_False; [done|]. by rewrite elem_of_filter_own.
  - f_equal. case_decide; [|done]. apply view_invoke_other. congruence.
Qed.

(** What a dispatch on [document] does to the card object [o] is what
    its own listeners for the event type do. *)
Lemma view_dispatch o type e p :
  view_of o (dispatch type e p) = local_dispatch type e (view_of o p).
Proof.
  unfold dispatch, local_dispatch. rewrite view_dispatch_fold. simpl.
  by rewrite filter_owner_snapshot.
Qed.

Lemma view_upd_card o f p :
  view_of o (upd_card o f p) = mkView (f <$> v_card (view_of o p)) (v_document (view_of o p))
                                      (v_host (view_of o p)).
Proof. unfold view_of; simpl. by rewrite list_lookup_alter_eq. Qed.

Lemma view_upd_card_other o o' f p : o ≠ o' -> view_of o (upd_card o' f p) = view_of o p.
Proof. intros Hne. unfold view_of; simpl. by rewrite list_lookup_alter_ne. Qed.

Lemma view_addEventListener o type h p :
  view_of o (addEventListener type (o, h) p)
  = mkView (v_card (view_of o p))
           (if decide ((type, (o, h)) ∈ v_document (view_of o p)) then v_document (view_of o p)
            else v_document (view_of o p) ++ [(type, (o, h))])
           (v_host (view_of o p)).
Proof.
  unfold view_of, addEventListener; simpl.
  destruct (decide ((type, (o, h)) ∈ document p)) as [Hin|Hin].
  - rewrite decide_True; [done|]. by apply elem_of_filter_own.
  - rewrite decide_False by (by rewrite elem_of_filter_own). simpl.
    rewrite filter_app, filter_cons, decide_True by done. done.
Qed.

Lemma view_addEventListener_other o o' type h p :
  o ≠ o' -> view_of o (addEventListener type (o', h) p) = view_of o p.
Proof.
  intros Hne. unfold view_of, addEventListener. case_decide; simpl; [done|].
  rewrite filter_app, filter_cons, decide_False by (unfold own; simpl; congruence).
  by rewrite filter_nil, app_nil_r.
Qed.

Lemma local_targets_view o p type : targets p o type = local_targets (view_of o p) type.
Proof. done. Qed.

(** The projection of the event loop on one card. *)
Theorem view_step o p e :
  view_of o (step p e) = local_step o (timer_hits o p) (view_of o p) e.
Proof.
  destruct e as [o' x y|o'|o' [t|]|x y| |t| | | |r|r|h]; simpl;
    try apply view_dispatch; try done.
  - case_decide as Ho; [subst o'|].
    + rewrite <- local_targets_view. destruct (targets p o "mousedown"); [|done].
      unfold Card.onMouseDown, local_start.
      rewrite view_upd_card, view_addEventListener, view_upd_card; simpl.
      rewrite <- option_fmap_compose. done.
    + destruct (targets p o' "mousedown"); [|done]. unfold Card.onMouseDown.
      by rewrite view_upd_card_other, view_addEventListener_other, view_upd_card_other.
  - case_decide as Ho; [subst o'|].
    + rewrite <- local_targets_view. destruct (targets p o "touchstart"); [|done].
      unfold Card.onTouchStart, local_start.
      rewrite view_upd_card, view_addEventListener, view_upd_card; simpl.
      rewrite <- option_fmap_compose. done.
    + destruct (targets p o' "touchstart"); [|done]. unfold Card.onTouchStart.
      by rewrite view_upd_card_other, view_addEventListener_other, view_upd_card_other.
  - by destruct (targets p o' "touchstart").
  - unfold timer_hits. destruct (timers p) as [|[ms o'] rest]; [done|].
    unfold remove. case_bool_decide as Ho; [subst o'|].
    + rewrite view_upd_card. done.
    + by rewrite view_upd_card_other.
  - by destruct r.
  - by destruct r.
Qed.

(** ** The gesture state machine *)

(** Evaluate a dispatch on a view whose listeners are known. *)
Ltac local_eval :=
  repeat first
    [ done
    | progress (simpl; unfold local_dispatch, local_invoke, local_settle; simpl)
    | rewrite filter_cons
    | rewrite filter_nil
    | match goal with
      | H : _ ∉ _ |- _ =>
          exfalso; apply H;
          repeat first [apply list_elem_of_here | apply list_elem_of_further]
      end
    | case_decide; simplify_eq/= ].



(** ** Along a run *)











Lemma local_move_event touch o pt this start h hit :
  startPoint this = Some start ->
  local_step o hit (mkView (Some this) (end_listeners touch o ++ [move_listener touch o]) h)
             (move_event touch pt)
  = local_move o (px pt) (py pt)
      (mkView (Some this) (end_listeners touch o ++ [move_listener touch o]) h).
Proof.
  intros Hstart. destruct touch; local_eval.
Qed.

Ltac in_list := repeat first [apply list_elem_of_here | apply list_elem_of_further].

Ltac not_in_list :=
  rewrite ?not_elem_of_cons; repeat split; first [congruence | apply not_elem_of_nil].

Lemma removed_on_commit touch o :
  filter (λ x, x ∉ removed_on_dismiss o) (end_listeners touch o ++ [move_listener touch o])
  = left_after_commit touch o.
Proof.
  unfold removed_on_dismiss. destruct touch; simpl.
  - rewrite filter_cons_False by (intros H; apply H; in_list).
    rewrite filter_cons_True by not_in_list.
    rewrite filter_cons_False by (intros H; apply H; in_list). done.
  - rewrite filter_cons_False by (intros H; apply H; in_list).
    rewrite filter_cons_False by (intros H; apply H; in_list). done.
Qed.




Lemma view_of_card o p this doc :
  cards p !! o = Some this -> filter (own o) (document p) = doc ->
  view_of o p = mkView (Some this) doc (host p).
Proof. intros Hc Hd. unfold view_of. by rewrite Hc, Hd. Qed.




(** ** One input family per card *)

Lemma in_family_local_invoke touch o h e v :
  in_family touch o v -> in_family touch o (local_invoke (o, h) e v).
Proof.
  intros [(c & Hc & Hl) Hdoc]. destruct v as [vc doc hst]; simpl in *; subst vc.
  unfold local_invoke; simpl.
  assert (Hsettle : ∀ m, in_family touch o (local_settle m (mkView (Some c) doc hst))).
  { intros m. split; simpl; [by eexists|].
    intros x [_ Hx]%list_elem_of_filter. auto. }
  assert (Hmove : ∀ x y, in_family touch o (local_move o x y (mkView (Some c) doc hst))).
  { intros x y. unfold local_move; simpl.
    destruct (startPoint c) as [start|]; [|split; simpl; eauto].
    case_match; split; simpl; eauto.
    - eexists; split; [done|]. simpl. by rewrite listeners_add_class.
    - intros z [_ Hz]%list_elem_of_filter. auto. }
  destruct h, e; auto; try (split; simpl; eauto; fail).
  case_match; auto. split; simpl; eauto.
Qed.

Lemma in_family_local_dispatch touch o type e v :
  (∀ x, x ∈ v_document v -> x.2.1 = o) ->
  in_family touch o v -> in_family touch o (local_dispatch type e v).
Proof.
  intros Hown. unfold local_dispatch.
  assert (Hls : ∀ l, l ∈ (filter (λ x, x.1 = type) (v_document v)).*2 -> l.1 = o).
  { intros l (x & -> & [_ Hx]%list_elem_of_filter)%list_elem_of_fmap. by apply Hown. }
  revert Hls. generalize ((filter (λ x, x.1 = type) (v_document v)).*2).
  intros ls. clear Hown. revert v. induction ls as [|[o' h] ls IH]; intros v Hls Hv; [done|].
  simpl. apply IH; [intros l Hl; apply Hls; by apply list_elem_of_further|].
  case_decide; [|done].
  assert (o' = o) as -> by (apply (Hls (o', h)); apply list_elem_of_here).
  by apply in_family_local_invoke.
Qed.

Lemma in_family_local_step touch o hit e v :
  (∀ x, x ∈ v_document v -> x.2.1 = o) ->
  in_family touch o v -> in_family touch o (local_step o hit v e).
Proof.
  intros Hown Hv. pose proof Hv as [(c & Hc & Hl) Hdoc].
  destruct e as [o' x y|o'|o' [t|]|x y| |t| | | |r|r|h]; simpl;
    try (by apply in_family_local_dispatch); try done.
  - case_decide; [|done]. unfold local_targets. rewrite Hc.
    destruct (attached (element c)); simpl; [|done].
    case_bool_decide as Hin; [|done]. rewrite Hl in Hin.
    destruct touch; simpl in Hin.
    { apply list_elem_of_singleton in Hin. done. }
    unfold local_start. split; simpl.
    + rewrite Hc. simpl. by eexists.
    + intros z Hz. case_decide; [by apply Hdoc|].
      apply elem_of_app in Hz as [Hz|Hz%list_elem_of_singleton]; [by apply Hdoc|].
      by right.
  - case_decide; [|done]. unfold local_targets. rewrite Hc.
    destruct (attached (element c)); simpl; [|done].
    case_bool_decide as Hin; [|done]. rewrite Hl in Hin.
    destruct touch; simpl in Hin.
    2:{ repeat (apply elem_of_cons in Hin as [?|Hin]; [done|]). by apply elem_of_nil in Hin. }
    unfold local_start. split; simpl.
    + rewrite Hc. simpl. by eexists.
    + intros z Hz. case_decide; [by apply Hdoc|].
      apply elem_of_app in Hz as [Hz|Hz%list_elem_of_singleton]; [by apply Hdoc|].
      by right.
  - destruct hit; [|done]. split; simpl; [|done]. rewrite Hc. simpl. by eexists.
Qed.

Lemma view_document_own o p x : x ∈ v_document (view_of o p) -> x.2.1 = o.
Proof. by intros [Hx _]%list_elem_of_filter. Qed.

Lemma in_family_step touch o p e :
  in_family touch o (view_of o p) -> in_family touch o (view_of o (step p e)).
Proof.
  intros Hv. rewrite view_step. apply in_family_local_step; [|done].
  apply view_document_own.
Qed.

Lemma in_family_run touch o events p :
  in_family touch o (view_of o p) -> in_family touch o (view_of o (run p events)).
Proof.
  revert p. induction events as [|e events IH]; intros p Hv; [done|].
  simpl. apply IH. by apply in_family_step.
Qed.

Lemma appendNewCard_fields d p :
  host (appendNewCard d p) = host p
  ∧ length (cards (appendNewCard d p)) = S (length (cards p))
  ∧ document (appendNewCard d p) = document (appended d p).
Proof.
  rewrite appendNewCard_appended.
  destruct (setIndices_fields 0 (querySelectorAll (appended d p)) (appended d p))
    as (_ & -> & _ & _ & _ & -> & ->).
  rewrite host_appended, cards_appended, length_app. simpl. split_and!; [done|lia|done].
Qed.

Lemma owners_exist_appendNewCard d p : owners_exist p -> owners_exist (appendNewCard d p).
Proof.
  intros Hp x. destruct (appendNewCard_fields d p) as (_ & -> & ->).
  rewrite elem_of_document_appended. intros [Hx|Hx].
  - specialize (Hp x Hx). lia.
  - destruct (Card.isTouchDevice _); simpl in Hx;
      repeat (apply elem_of_cons in Hx as [->|Hx]; [simpl; lia|]); by apply elem_of_nil in Hx.
Qed.

Lemma appendNewCard_lookup d p o c :
  cards (appended d p) !! o = Some c ->
  ∃ c', cards (appendNewCard d p) !! o = Some c' ∧ same_but_index c c'.
Proof. rewrite appendNewCard_appended. apply setIndices_lookup. Qed.

Lemma in_family_new_card d p :
  owners_exist p ->
  in_family (Card.isTouchDevice (capabilities (host p))) (length (cards p))
            (view_of (length (cards p)) (appendNewCard d p)).
Proof.
  intros Hp. split; simpl.
  - destruct (appendNewCard_lookup d p (length (cards p)) (new_card d (host p)))
      as (c' & -> & Hsame).
    { rewrite cards_appended. by rewrite list_lookup_middle. }
    exists c'. split; [done|]. rewrite Hsame. done.
  - intros x [Hown Hx]%list_elem_of_filter.
    destruct (appendNewCard_fields d p) as (_ & _ & Hdoc). rewrite Hdoc in Hx.
    apply elem_of_document_appended in Hx as [Hx|Hx]; [|by left].
    specialize (Hp x Hx). unfold own in Hown. lia.
Qed.

Lemma in_family_old_card touch d p o :
  o < length (cards p) ->
  in_family touch o (view_of o p) -> in_family touch o (view_of o (appendNewCard d p)).
Proof.
  intros Ho [(c & Hc & Hl) Hdoc]; simpl in *. split; simpl.
  - destruct (appendNewCard_lookup d p o c) as (c' & -> & Hsame).
    { rewrite cards_appended. by rewrite lookup_app_l. }
    exists c'. split; [done|]. rewrite Hsame. done.
  - intros x [Hown Hx]%list_elem_of_filter.
    destruct (appendNewCard_fields d p) as (_ & _ & Hd). rewrite Hd in Hx.
    apply elem_of_document_appended in Hx as [Hx|Hx].
    + apply Hdoc. by apply list_elem_of_filter.
    + unfold own in Hown. exfalso.
      destruct (Card.isTouchDevice _); simpl in Hx;
        repeat (apply elem_of_cons in Hx as [->|Hx]; [simpl in *; lia|]);
        by apply elem_of_nil in Hx.
Qed.

Lemma in_family_load cars p :
  owners_exist p ->
  (∀ o, o < length (cards p) ->
        in_family (Card.isTouchDevice (capabilities (host p))) o (view_of o p)) ->
  host (load cars p) = host p
  ∧ length (cards (load cars p)) = length (cards p) + length cars
  ∧ ∀ o, o < length (cards p) + length cars ->
         in_family (Card.isTouchDevice (capabilities (host p))) o (view_of o (load cars p)).
Proof.
  revert p. induction cars as [|d cars IH]; intros p Hp Hfam; simpl.
  - split_and!; [done|lia|]. intros o Ho. apply Hfam. lia.
  - destruct (appendNewCard_fields d p) as (Hh & Hlen & _).
    destruct (IH (appendNewCard d p)) as (Hh' & Hlen' & Hfam').
    + by apply owners_exist_appendNewCard.
    + rewrite Hh, Hlen. intros o Ho.
      destruct (decide (o = length (cards p))) as [->|Hne].
      * by apply in_family_new_card.
      * apply in_family_old_card; [lia|]. apply Hfam. lia.
    + rewrite Hh', Hlen', Hh, Hlen. split_and!; [done|lia|].
      intros o Ho. rewrite <- Hh. apply Hfam'. lia.
Qed.

(** C9.  Load any deck on any host and let any events follow -- among
    them changes of the host's touch capabilities.  Every card of the
    deck is at all times in the input family that [#isTouchDevice] gave
    when the deck was built: its element carries the start listeners of
    that family and no others, and each of its listeners on [document]
    is an end listener or the move listener of that family. *)
Theorem one_input_family_per_card_for_life :
  ∀ (h : Host) (cars : list CarData) (events : list event) (o : nat),
    o < length cars ->
    (∃ c, cards (run (load cars (blank h)) events) !! o = Some c
          ∧ listeners (element c) = start_listeners (Card.isTouchDevice (capabilities h)))
    ∧ (∀ type o' handler,
         (type, (o', handler)) ∈ document (run (load cars (blank h)) events) -> o' = o ->
         (type, (o', handler)) ∈ end_listeners (Card.isTouchDevice (capabilities h)) o
         ∨ (type, (o', handler)) = move_listener (Card.isTouchDevice (capabilities h)) o).
Proof.
  intros h cars events o Ho.
  destruct (in_family_load cars (blank h)) as (_ & _ & Hfam).
  { intros x Hx. by apply elem_of_nil in Hx. }
  { simpl. lia. }
  specialize (Hfam o Ho). simpl in Hfam.
  apply (in_family_run _ _ events) in Hfam. destruct Hfam as [Hc Hdoc]. split; [done|].
  intros type o' handler Hin ->. apply Hdoc. by apply list_elem_of_filter.
Qed.

(** What a commit leaves on [document]: nothing of a mouse card, the
    [cancel] listener of a touch card. *)
Lemma commit_leaves_on_document :
  ∀ (touch : bool) (o : nat) (this : Card) (start pt : point) (p : page),
    dragging touch o this start p ->
    (clientWidth (element this) * 0.7 <? abs (px pt - px start))%float = true ->
    filter (own o) (document (step p (move_event touch pt))) = left_after_commit touch o.
Proof.
  intros touch o this start pt p (Hthis & Hstart & Hdoc) Hbeyond.
  pose proof (view_step o p (move_event touch pt)) as Hv.
  rewrite (view_of_card _ _ _ _ Hthis Hdoc), (local_move_event _ _ _ _ _ _ _ Hstart) in Hv.
  unfold local_move, beyond_threshold in Hv; simpl in Hv. rewrite Hstart, Hbeyond in Hv.
  injection Hv as _ Hd _. rewrite Hd. apply removed_on_commit.
Qed.

(** ** After a commit *)




(** ** The like-counter toggler *)


(** ** A deck of one, on a desktop and on a phone *)

Example desktop_deck_card : cards (load [audi] (blank desktop)) !! 0 = Some (audi_card desktop).
Proof. reflexivity. Qed.

(** C1, the claim fails here.  One card on a desktop; the user drags it
    beyond the threshold, takes hold of it again before the timer removes
    it, and drags it beyond the threshold once more: [onDismiss] runs
    twice, the count goes to -1, and the notification is posted twice. *)
Example depleted_is_posted_twice_for_one_card :
  posts "/cards-depleted"
    (trace (run (load [audi] (blank desktop))
                [MouseDown 0 0 0; MouseMove 250 0; MouseDown 0 0 0; MouseMove 250 0]))
  = [depleted_body; depleted_body]
  ∧ cardCount (run (load [audi] (blank desktop))
                   [MouseDown 0 0 0; MouseMove 250 0; MouseDown 0 0 0; MouseMove 250 0])
    = (-1)%Z.
Proof. vm_compute. done. Qed.

(** C2, the code at the failing input.  One card on a phone, dragged
    beyond the threshold: after the commit the [cancel] listener that
    [#listenToTouchEvents] bound on [document] is still there. *)
Theorem touch_commit_leaves_the_cancel_listener_on_document :
  document (run (load [audi] (blank phone))
                [TouchStart 0 (Some origin); TouchMove (Some (mkPoint 250 0))])
  = [("cancel", (0, HandleTouchEnd))].
Proof. vm_compute. done. Qed.




(** ** The theorems at work on the deck of one *)



Lemma callbacks_on_the_desktop_deck :
  invocations 0 (trace (Card.dismiss 0 (direction_of true) desktop_deck))
  = invocations 0 (trace desktop_deck) ++ [OnDismiss; OnLike].
Proof.
  apply (commit_calls_onDismiss_then_one_of_onLike_onDislike
           0 desktop_deck (audi_card desktop) true).
  - reflexivity.
  - by eexists.
  - by eexists.
  - by eexists.
Defined.




Lemma family_on_the_phone_deck :
  (∃ c, cards (run (load [audi] (blank phone))
                   [HostChanged desktop; TouchStart 0 (Some origin)]) !! 0 = Some c
        ∧ listeners (element c) = start_listeners (Card.isTouchDevice (capabilities phone)))
  ∧ (∀ type o' handler,
       (type, (o', handler))
       ∈ document (run (load [audi] (blank phone))
                       [HostChanged desktop; TouchStart 0 (Some origin)]) ->
       o' = 0 ->
       (type, (o', handler)) ∈ end_listeners (Card.isTouchDevice (capabilities phone)) 0
       ∨ (type, (o', handler)) = move_listener (Card.isTouchDevice (capabilities phone)) 0).
Proof.
  apply (one_input_family_per_card_for_life
           phone [audi] [HostChanged desktop; TouchStart 0 (Some origin)] 0).
  simpl. lia.
Defined.


Lemma commit_leaves_on_the_phone_deck :
  filter (own 0)
         (document (step (run phone_deck [TouchStart 0 (Some origin)])
                         (move_event true (mkPoint 250 0))))
  = left_after_commit true 0.
Proof.
  apply (commit_leaves_on_document true 0 (started origin (audi_card phone)) origin
           (mkPoint 250 0) (run phone_deck [TouchStart 0 (Some origin)])).
  - vm_compute. done.
  - reflexivity.
Defined.
